(** * Pezeshk, Zandieh and Tavakoli (2011) ground motion model

    A shallow embedding of [pygmm/pezeshk_zandieh_tavakoli_2011.py] and the
    properties of its two calculations, [_calc_ln_resp] and [_calc_ln_std].

    Numbers.  A Python/NumPy [float64] is modelled by [f64]: a real number,
    or one of the three special values +inf, -inf and nan.  The special
    values arise where exact arithmetic leaves the reals ([log10 0], [inf -
    inf], [0 * inf], ...) and propagate as NumPy propagates them.  Rounding
    and the finite exponent range of the binary format are NOT modelled:
    finite results are exact reals, and signed zeros are identified.  The
    theorems therefore speak of the values of the formulas and of the
    special values that exact arithmetic produces, not of overflow or
    underflow in the binary format.

    Arrays.  A NumPy value is a scalar or a one-dimensional array ([npval]);
    binary operations broadcast a scalar over an array and work element by
    element on two arrays, as NumPy's ufuncs do. *)

From Stdlib Require Import Reals Lra List String Arith Lia.
Import ListNotations.
Open Scope R_scope.

(** ** Scalar float operations *)

Module F64.

Inductive f64 : Type :=
| Fin (r : R)
| PInf
| NInf
| NaN.

Definition is_finite (x : f64) : Prop :=
  match x with Fin _ => True | _ => False end.

Definition add (x y : f64) : f64 :=
  match x, y with
  | NaN, _ | _, NaN => NaN
  | Fin a, Fin b => Fin (a + b)
  | PInf, NInf | NInf, PInf => NaN
  | PInf, _ | _, PInf => PInf
  | NInf, _ | _, NInf => NInf
  end.

(** [a * (+inf)] when [pos], [a * (-inf)] otherwise, for a finite [a]. *)
Definition mul_inf (a : R) (pos : bool) : f64 :=
  match total_order_T 0 a with
  | inleft (left _) => if pos then PInf else NInf
  | inleft (right _) => NaN
  | inright _ => if pos then NInf else PInf
  end.

Definition mul (x y : f64) : f64 :=
  match x, y with
  | NaN, _ | _, NaN => NaN
  | Fin a, Fin b => Fin (a * b)
  | Fin a, PInf | PInf, Fin a => mul_inf a true
  | Fin a, NInf | NInf, Fin a => mul_inf a false
  | PInf, PInf | NInf, NInf => PInf
  | PInf, NInf | NInf, PInf => NInf
  end.

(** NumPy's true division; a zero divisor is taken as +0. *)
Definition div (x y : f64) : f64 :=
  match x, y with
  | NaN, _ | _, NaN => NaN
  | Fin a, Fin b =>
      if Req_dec_T b 0 then
        match total_order_T 0 a with
        | inleft (left _) => PInf
        | inleft (right _) => NaN
        | inright _ => NInf
        end
      else Fin (a / b)
  | Fin _, (PInf | NInf) => Fin 0
  | PInf, Fin b => if Rlt_dec b 0 then NInf else PInf
  | NInf, Fin b => if Rlt_dec b 0 then PInf else NInf
  | (PInf | NInf), (PInf | NInf) => NaN
  end.

(** [x ** 2]: the square, computed as one multiplication.  The product
    is exact: the binary format would give [inf] beyond its largest
    number and [0] below its smallest. *)
Definition square (x : f64) : f64 := mul x x.

Definition sqrt (x : f64) : f64 :=
  match x with
  | Fin a => if Rlt_dec a 0 then NaN else Fin (R_sqrt.sqrt a)
  | PInf => PInf
  | NInf | NaN => NaN
  end.

(** The logarithm to base [e] of the reals, with the float conventions
    [log 0 = -inf] and [log x = nan] for [x < 0]. *)
Definition log (x : f64) : f64 :=
  match x with
  | Fin a =>
      match total_order_T 0 a with
      | inleft (left _) => Fin (ln a)
      | inleft (right _) => NInf
      | inright _ => NaN
      end
  | PInf => PInf
  | NInf | NaN => NaN
  end.

Definition Rlog10 (a : R) : R := ln a / ln 10.

Definition log10 (x : f64) : f64 :=
  match x with
  | Fin a =>
      match total_order_T 0 a with
      | inleft (left _) => Fin (Rlog10 a)
      | inleft (right _) => NInf
      | inright _ => NaN
      end
  | PInf => PInf
  | NInf | NaN => NaN
  end.

(** [np.power(10, x)]: ten to the power [x].  The power is exact: the
    binary format would give [inf] for [x] above about 308 and [0] for [x]
    below about -324, so a [Fin] result here says nothing on whether the
    float64 result is finite. *)
Definition power10 (x : f64) : f64 :=
  match x with
  | Fin a => Fin (Rpower 10 a)
  | PInf => PInf
  | NInf => Fin 0
  | NaN => NaN
  end.

(** [np.minimum] and [np.maximum] propagate nan. *)
Definition minimum (x y : f64) : f64 :=
  match x, y with
  | NaN, _ | _, NaN => NaN
  | NInf, _ | _, NInf => NInf
  | PInf, z | z, PInf => z
  | Fin a, Fin b => Fin (Rmin a b)
  end.

Definition maximum (x y : f64) : f64 :=
  match x, y with
  | NaN, _ | _, NaN => NaN
  | PInf, _ | _, PInf => PInf
  | NInf, z | z, NInf => z
  | Fin a, Fin b => Fin (Rmax a b)
  end.

End F64.

Export F64(f64, Fin, PInf, NInf, NaN).

(** ** NumPy values: scalars and one-dimensional arrays *)

Inductive npval : Type :=
| Scalar (x : f64)
| Array (l : list f64).

(** A Python float or a table entry: a finite number. *)
Definition py (r : R) : npval := Scalar (Fin r).

Fixpoint zip_with (f : f64 -> f64 -> f64) (l1 l2 : list f64) : list f64 :=
  match l1, l2 with
  | x :: l1', y :: l2' => f x y :: zip_with f l1' l2'
  | _, _ => []
  end.

(** A unary ufunc. *)
Definition ufunc1 (f : f64 -> f64) (v : npval) : npval :=
  match v with
  | Scalar x => Scalar (f x)
  | Array l => Array (map f l)
  end.

(** A binary ufunc with broadcasting.  Two arrays are combined element by
    element; here both always are columns of one table and so have one
    length (NumPy refuses two arrays of different lengths, which this
    program never builds). *)
Definition ufunc2 (f : f64 -> f64 -> f64) (v w : npval) : npval :=
  match v, w with
  | Scalar x, Scalar y => Scalar (f x y)
  | Scalar x, Array l => Array (map (f x) l)
  | Array l, Scalar y => Array (map (fun x => f x y) l)
  | Array l1, Array l2 => Array (zip_with f l1 l2)
  end.

(** [len(v)] of an array; a scalar has no length. *)
Definition len (v : npval) : option nat :=
  match v with
  | Scalar _ => None
  | Array l => Some (List.length l)
  end.

(** [v[i]]. *)
Definition item (v : npval) (i : nat) : option f64 :=
  match v with
  | Scalar _ => None
  | Array l => nth_error l i
  end.

Module np.
Definition add := ufunc2 F64.add.
Definition multiply := ufunc2 F64.mul.
Definition divide := ufunc2 F64.div.
Definition square := ufunc1 F64.square.
Definition sqrt := ufunc1 F64.sqrt.
Definition log := ufunc1 F64.log.
Definition log10 := ufunc1 F64.log10.
Definition power10 := ufunc1 F64.power10.
Definition minimum := ufunc2 F64.minimum.
Definition maximum := ufunc2 F64.maximum.
End np.

Declare Scope np_scope.
Delimit Scope np_scope with np.
Bind Scope np_scope with npval.
Notation "x + y" := (np.add x y) : np_scope.
Notation "x * y" := (np.multiply x y) : np_scope.
Notation "x / y" := (np.divide x y) : np_scope.
Notation "x '**2'" := (np.square x) (at level 1, format "x  '**2'") : np_scope.

(** ** The coefficient table

    [model.load_data_file('pezeshk_zandieh_tavakoli_2011.csv', 1)] returns
    a record array: one record per period, fields read by name.  The file
    is not part of the sources, so the table is a parameter of the model;
    a field access [c['c1']] is the column of that field. *)

Record Row : Type := mkRow {
  period : R;
  c1 : R; c2 : R; c3 : R; c4 : R; c5 : R; c6 : R; c7 : R;
  c8 : R; c9 : R; c10 : R; c11 : R; c12 : R; c13 : R; c14 : R;
  sigma_reg : R
}.

Definition CoefficientTable : Type := list Row.

Definition col (f : Row -> R) (c : CoefficientTable) : npval :=
  Array (map (fun r => Fin (f r)) c).

Notation "c .[ f ]" := (col f c) (at level 1, format "c .[ f ]").

(** ** The model class *)

(** [self.params]: the validated inputs. *)
Record Params : Type := mkParams {
  mag : R;
  dist_rup : R
}.

Definition INDEX_PGA : nat := 0.
Definition INDICES_PSA : list nat := seq 1 22.

Section PezeshkZandiehTavakoli2011.

Variable COEFF : CoefficientTable.

Definition PERIODS : npval := COEFF.[period].

Local Open Scope np_scope.

(** The effective distance of [_calc_ln_resp]. *)
Definition calc_dist (p : Params) : npval :=
  np.sqrt ((py (dist_rup p)) **2 + COEFF.[c11] **2).

(** The summands of [log10_resp] that depend on the distance, in the order
    of the source expression. *)
Definition near_field (p : Params) (dist : npval) : npval :=
  (COEFF.[c4] + COEFF.[c5] * py (mag p)) *
  np.minimum (np.log10 dist) (np.log10 (py 70)).

Definition mid_field (p : Params) (dist : npval) : npval :=
  (COEFF.[c6] + COEFF.[c7] * py (mag p)) *
  np.maximum
    (np.minimum
       (np.log10 (dist / py 70))
       (np.log10 (py 140 / py 70)))
    (py 0).

Definition far_field (p : Params) (dist : npval) : npval :=
  (COEFF.[c8] + COEFF.[c9] * py (mag p)) *
  np.maximum (np.log10 (dist / py 140)) (py 0).

Definition calc_log10_resp (p : Params) : npval :=
  let dist := calc_dist p in
  COEFF.[c1] +
  COEFF.[c2] * py (mag p) +
  COEFF.[c3] * (py (mag p)) **2 +
  near_field p dist +
  mid_field p dist +
  far_field p dist +
  COEFF.[c10] * dist.

Definition _calc_ln_resp (p : Params) : npval :=
  let log10_resp := calc_log10_resp p in
  let ln_resp := np.log (np.power10 log10_resp) in
  ln_resp.

Definition _calc_ln_std (p : Params) : npval :=
  let ln_std_mean :=
    if Rle_dec (mag p) 7 then
      COEFF.[c12] * py (mag p) + COEFF.[c13]
    else
      py (-6.95e-3) * py (mag p) + COEFF.[c14] in
  let ln_std := np.sqrt (ln_std_mean **2 + COEFF.[sigma_reg] **2) in
  ln_std.

End PezeshkZandiehTavakoli2011.

(** ** Construction and validation

    [model.Model.__init__] and [model.NumericParameter] live in the base
    module [model.py], which is not part of the sources; [PARAMS] below is
    the declaration of this class. *)

Record NumericParameter : Type := mkNumericParameter {
  name : string;
  required : bool;
  min_ : option R;
  max_ : option R
}.

Definition PARAMS : list NumericParameter :=
  [ mkNumericParameter "mag" true (Some 5) (Some 8);
    mkNumericParameter "dist_rup" true None (Some 1000) ].

Inductive Error : Type :=
| ParameterOutOfRange (param : string) (value bound : R)
| MissingParameter (param : string).

(** The keyword arguments of a call, [**kwds]. *)
Definition Kwds : Type := list (string * R).

Fixpoint kwds_get (k : string) (kwds : Kwds) : option R :=
  match kwds with
  | [] => None
  | (k', v) :: rest => if String.eqb k k' then Some v else kwds_get k rest
  end.

(** Modelled from the spec: the range check of [model.NumericParameter],
    absent from the sources.  A supplied value below the declared minimum
    or above the declared maximum fails with [ParameterOutOfRange], naming
    the parameter, the value and the violated bound; a bound declared
    [None] is not checked; a required parameter that is not supplied fails
    with [MissingParameter].  The value itself is never changed. *)
Definition check (np : NumericParameter) (value : option R)
  : Error + option R :=
  match value with
  | None =>
      if required np then inl (MissingParameter (name np)) else inr None
  | Some v =>
      match min_ np with
      | Some lo =>
          if Rlt_dec v lo then inl (ParameterOutOfRange (name np) v lo)
          else
            match max_ np with
            | Some hi =>
                if Rlt_dec hi v
                then inl (ParameterOutOfRange (name np) v hi)
                else inr (Some v)
            | None => inr (Some v)
            end
      | None =>
          match max_ np with
          | Some hi =>
              if Rlt_dec hi v
              then inl (ParameterOutOfRange (name np) v hi)
              else inr (Some v)
          | None => inr (Some v)
          end
      end
  end.

(** Modelled from the spec: the validation pass of [model.Model.__init__],
    absent from the sources.  The declared parameters are checked in the
    order of the declaration, the first failure is raised, and the checked
    values are collected into the [params] dictionary. *)
Fixpoint check_inputs (decls : list NumericParameter) (kwds : Kwds)
  : Error + Kwds :=
  match decls with
  | [] => inr []
  | np :: decls' =>
      match check np (kwds_get (name np) kwds) with
      | inl e => inl e
      | inr v =>
          match check_inputs decls' kwds with
          | inl e => inl e
          | inr d =>
              inr (match v with Some x => (name np, x) :: d | None => d end)
          end
      end
  end.

(** Modelled from the spec: [self.params] after [model.Model.__init__],
    read as the two entries this class uses. *)
Definition Model__init__ (kwds : Kwds) : Error + Params :=
  match check_inputs PARAMS kwds with
  | inl e => inl e
  | inr d =>
      match kwds_get "mag" d, kwds_get "dist_rup" d with
      | Some m, Some r => inr (mkParams m r)
      | None, _ => inl (MissingParameter "mag")
      | _, None => inl (MissingParameter "dist_rup")
      end
  end.

(** An instance of the class: the validated inputs and the two cached
    results. *)
Record Model : Type := mkModel {
  params : Params;
  _ln_resp : npval;
  _ln_std : npval
}.

(** [PezeshkZandiehTavakoli2011.__init__]: either the error raised by the
    base class, and then no instance, or the instance with both results
    computed. *)
Definition __init__ (COEFF : CoefficientTable) (kwds : Kwds)
  : Error + Model :=
  match Model__init__ kwds with
  | inl e => inl e
  | inr p => inr (mkModel p (_calc_ln_resp COEFF p) (_calc_ln_std COEFF p))
  end.

(** ** The calculations, read one table row at a time

    The value that the vectorised code computes at one position, written
    with the scalar float operations. *)

Section PerRow.

Variable p : Params.
Variable r : Row.

Definition dist_at : f64 :=
  F64.sqrt (F64.add (F64.square (Fin (dist_rup p)))
                    (F64.square (Fin (c11 r)))).

Definition near_field_at (dist : f64) : f64 :=
  F64.mul (F64.add (Fin (c4 r)) (F64.mul (Fin (c5 r)) (Fin (mag p))))
          (F64.minimum (F64.log10 dist) (F64.log10 (Fin 70))).

Definition mid_field_at (dist : f64) : f64 :=
  F64.mul (F64.add (Fin (c6 r)) (F64.mul (Fin (c7 r)) (Fin (mag p))))
          (F64.maximum
             (F64.minimum (F64.log10 (F64.div dist (Fin 70)))
                          (F64.log10 (F64.div (Fin 140) (Fin 70))))
             (Fin 0)).

Definition far_field_at (dist : f64) : f64 :=
  F64.mul (F64.add (Fin (c8 r)) (F64.mul (Fin (c9 r)) (Fin (mag p))))
          (F64.maximum (F64.log10 (F64.div dist (Fin 140))) (Fin 0)).

Definition log10_resp_at : f64 :=
  F64.add
    (F64.add
       (F64.add
          (F64.add
             (F64.add
                (F64.add (Fin (c1 r)) (F64.mul (Fin (c2 r)) (Fin (mag p))))
                (F64.mul (Fin (c3 r)) (F64.square (Fin (mag p)))))
             (near_field_at dist_at))
          (mid_field_at dist_at))
       (far_field_at dist_at))
    (F64.mul (Fin (c10 r)) dist_at).

Definition ln_resp_at : f64 := F64.log (F64.power10 log10_resp_at).

Definition ln_std_mean_at : f64 :=
  if Rle_dec (mag p) 7 then
    F64.add (F64.mul (Fin (c12 r)) (Fin (mag p))) (Fin (c13 r))
  else
    F64.add (F64.mul (Fin (-6.95e-3)) (Fin (mag p))) (Fin (c14 r)).

Definition ln_std_at : f64 :=
  F64.sqrt (F64.add (F64.square ln_std_mean_at)
                    (F64.square (Fin (sigma_reg r)))).

End PerRow.

(** ** The formulas of the specification, over the reals *)

Module Spec.

Definition log10 (x : R) : R := ln x / ln 10.

Definition dist (dist_rup : R) (r : Row) : R :=
  sqrt (dist_rup ^ 2 + c11 r ^ 2).

Definition near_field (mag d : R) (r : Row) : R :=
  c1 r + c2 r * mag + c3 r * mag ^ 2 +
  (c4 r + c5 r * mag) * Rmin (log10 d) (log10 70).

Definition mid_field (mag d : R) (r : Row) : R :=
  (c6 r + c7 r * mag) * Rmax (Rmin (log10 (d / 70)) (log10 (140 / 70))) 0.

Definition far_field (mag d : R) (r : Row) : R :=
  (c8 r + c9 r * mag) * Rmax (log10 (d / 140)) 0.

Definition anelastic (d : R) (r : Row) : R := c10 r * d.

Definition log10_resp (mag dist_rup : R) (r : Row) : R :=
  let d := dist dist_rup r in
  near_field mag d r + mid_field mag d r + far_field mag d r + anelastic d r.

Definition ln_resp (mag dist_rup : R) (r : Row) : R :=
  ln (Rpower 10 (log10_resp mag dist_rup r)).

Definition ln_std_mean (mag : R) (r : Row) : R :=
  if Rle_dec mag 7 then c12 r * mag + c13 r else -6.95e-3 * mag + c14 r.

Definition ln_std (mag : R) (r : Row) : R :=
  sqrt (ln_std_mean mag r ^ 2 + sigma_reg r ^ 2).

End Spec.

(** ** A table for examples

    Twenty-three rows with illustrative coefficient values (the data file
    of the model is not part of the sources); row [k] has period [k / 10]. *)

Definition example_row (k : nat) : Row :=
  mkRow (INR k / 10)
        1.5 0.25 (-0.04) (-3.8) 0.35 0.3 (-0.09)
        (-2.5) 0.18 (-0.0004) 6.5 (-0.02) 0.38 0.28
        0.3.

Definition example_table : CoefficientTable := map example_row (seq 0 23).

(** A row whose pseudo-depth [c11] is zero: its effective distance is the
    rupture distance itself. *)
Definition surface_row : Row :=
  mkRow 0
        1.5 0.25 (-0.04) (-3.8) 0.35 0.3 (-0.09)
        (-2.5) 0.18 (-0.0004) 0 (-0.02) 0.38 0.28
        0.3.

(** ** Broadcasting over the columns of one table *)

Section Broadcast.

Context {A : Type}.
Variable c : list A.

Lemma zip_with_map (f : f64 -> f64 -> f64) (g h : A -> f64) :
  zip_with f (map g c) (map h c) = map (fun a => f (g a) (h a)) c.
Proof.
  induction c as [|a l IH]; simpl; [reflexivity|].
  now rewrite IH.
Qed.

Lemma ufunc2_aa f (g h : A -> f64) :
  ufunc2 f (Array (map g c)) (Array (map h c))
  = Array (map (fun a => f (g a) (h a)) c).
Proof. simpl. now rewrite zip_with_map. Qed.

Lemma ufunc2_as f (g : A -> f64) y :
  ufunc2 f (Array (map g c)) (Scalar y) = Array (map (fun a => f (g a) y) c).
Proof. simpl. now rewrite map_map. Qed.

Lemma ufunc2_sa f x (g : A -> f64) :
  ufunc2 f (Scalar x) (Array (map g c)) = Array (map (fun a => f x (g a)) c).
Proof. simpl. now rewrite map_map. Qed.

Lemma ufunc2_ss f x y :
  ufunc2 f (Scalar x) (Scalar y) = Scalar (f x y).
Proof. reflexivity. Qed.

Lemma ufunc1_a f (g : A -> f64) :
  ufunc1 f (Array (map g c)) = Array (map (fun a => f (g a)) c).
Proof. simpl. now rewrite map_map. Qed.

Lemma ufunc1_s f x : ufunc1 f (Scalar x) = Scalar (f x).
Proof. reflexivity. Qed.

Lemma item_map (g : A -> f64) i :
  item (Array (map g c)) i = option_map g (nth_error c i).
Proof. simpl. apply nth_error_map. Qed.

Lemma len_map (g : A -> f64) :
  len (Array (map g c)) = Some (List.length c).
Proof. simpl. now rewrite length_map. Qed.

End Broadcast.

Ltac vectorise :=
  unfold np.add, np.multiply, np.divide, np.square, np.sqrt, np.log,
    np.log10, np.power10, np.minimum, np.maximum, col, py;
  repeat (rewrite ?ufunc2_aa, ?ufunc2_as, ?ufunc2_sa, ?ufunc2_ss,
            ?ufunc1_a, ?ufunc1_s).

(** Each calculation is the map of its per-row reading over the table. *)

Section Vectorised.

Variable COEFF : CoefficientTable.
Variable p : Params.

Lemma calc_dist_rows :
  calc_dist COEFF p = Array (map (dist_at p) COEFF).
Proof. unfold calc_dist. vectorise. reflexivity. Qed.

Lemma near_field_rows (dv : Row -> f64) :
  near_field COEFF p (Array (map dv COEFF))
  = Array (map (fun r => near_field_at p r (dv r)) COEFF).
Proof. unfold near_field. vectorise. reflexivity. Qed.

Lemma mid_field_rows (dv : Row -> f64) :
  mid_field COEFF p (Array (map dv COEFF))
  = Array (map (fun r => mid_field_at p r (dv r)) COEFF).
Proof. unfold mid_field. vectorise. reflexivity. Qed.

Lemma far_field_rows (dv : Row -> f64) :
  far_field COEFF p (Array (map dv COEFF))
  = Array (map (fun r => far_field_at p r (dv r)) COEFF).
Proof. unfold far_field. vectorise. reflexivity. Qed.

Lemma calc_log10_resp_rows :
  calc_log10_resp COEFF p = Array (map (log10_resp_at p) COEFF).
Proof.
  unfold calc_log10_resp. cbv zeta.
  rewrite calc_dist_rows, near_field_rows, mid_field_rows, far_field_rows.
  vectorise. reflexivity.
Qed.

Lemma calc_ln_resp_rows :
  _calc_ln_resp COEFF p = Array (map (ln_resp_at p) COEFF).
Proof.
  unfold _calc_ln_resp. cbv zeta. rewrite calc_log10_resp_rows.
  vectorise. reflexivity.
Qed.

Lemma calc_ln_std_rows :
  _calc_ln_std COEFF p = Array (map (ln_std_at p) COEFF).
Proof.
  unfold _calc_ln_std, ln_std_at, ln_std_mean_at. cbv zeta.
  destruct (Rle_dec (mag p) 7); vectorise; reflexivity.
Qed.

End Vectorised.

(** ** The float operations on finite arguments *)

Lemma log10_Fin a : 0 < a -> F64.log10 (Fin a) = Fin (Spec.log10 a).
Proof.
  intros Ha. unfold F64.log10.
  destruct (total_order_T 0 a) as [[H|H]|H]; try lra; reflexivity.
Qed.

Lemma log10_zero : F64.log10 (Fin 0) = NInf.
Proof.
  unfold F64.log10.
  destruct (total_order_T 0 0) as [[H|H]|H]; try lra; reflexivity.
Qed.

Lemma log_Fin a : 0 < a -> F64.log (Fin a) = Fin (ln a).
Proof.
  intros Ha. unfold F64.log.
  destruct (total_order_T 0 a) as [[H|H]|H]; try lra; reflexivity.
Qed.

Lemma sqrt_Fin a : 0 <= a -> F64.sqrt (Fin a) = Fin (sqrt a).
Proof.
  intros Ha. unfold F64.sqrt. destruct (Rlt_dec a 0); [lra|reflexivity].
Qed.

Lemma div_Fin a b : b <> 0 -> F64.div (Fin a) (Fin b) = Fin (a / b).
Proof.
  intros Hb. unfold F64.div.
  destruct (Req_dec_T b 0); [contradiction|reflexivity].
Qed.

Lemma square_Fin a : F64.square (Fin a) = Fin (a ^ 2).
Proof. unfold F64.square. simpl. f_equal. ring. Qed.

Lemma log_power10 x : F64.log (F64.power10 (Fin x)) = Fin (x * ln 10).
Proof.
  unfold F64.power10. rewrite log_Fin.
  - unfold Rpower. now rewrite ln_exp.
  - unfold Rpower. apply exp_pos.
Qed.

Lemma sum_squares_nonneg a b : 0 <= a ^ 2 + b ^ 2.
Proof. nra. Qed.

(** ** The per-row values and the formulas of the specification *)

Section RowFacts.

Variable p : Params.
Variable r : Row.

Lemma dist_at_Fin : dist_at p r = Fin (Spec.dist (dist_rup p) r).
Proof.
  unfold dist_at, Spec.dist. rewrite !square_Fin. simpl F64.add.
  apply sqrt_Fin, sum_squares_nonneg.
Qed.

Lemma dist_nonneg : 0 <= Spec.dist (dist_rup p) r.
Proof. apply sqrt_pos. Qed.

Lemma dist_pos :
  dist_rup p <> 0 \/ c11 r <> 0 -> 0 < Spec.dist (dist_rup p) r.
Proof.
  intros H. apply sqrt_lt_R0.
  destruct H as [H|H]; nra.
Qed.

Lemma dist_zero :
  dist_rup p = 0 -> c11 r = 0 -> Spec.dist (dist_rup p) r = 0.
Proof.
  intros H1 H2. unfold Spec.dist. rewrite H1, H2.
  replace (0 ^ 2 + 0 ^ 2) with 0 by ring. apply sqrt_0.
Qed.

Lemma near_field_at_Fin d :
  0 < d ->
  F64.add
    (F64.add
       (F64.add (Fin (c1 r)) (F64.mul (Fin (c2 r)) (Fin (mag p))))
       (F64.mul (Fin (c3 r)) (F64.square (Fin (mag p)))))
    (near_field_at p r (Fin d))
  = Fin (Spec.near_field (mag p) d r).
Proof.
  intros Hd. unfold near_field_at, Spec.near_field.
  rewrite square_Fin, !log10_Fin by lra. reflexivity.
Qed.

Lemma mid_field_at_Fin d :
  0 < d -> mid_field_at p r (Fin d) = Fin (Spec.mid_field (mag p) d r).
Proof.
  intros Hd. unfold mid_field_at, Spec.mid_field.
  rewrite !div_Fin by lra.
  rewrite !log10_Fin by lra. reflexivity.
Qed.

Lemma far_field_at_Fin d :
  0 < d -> far_field_at p r (Fin d) = Fin (Spec.far_field (mag p) d r).
Proof.
  intros Hd. unfold far_field_at, Spec.far_field.
  rewrite !div_Fin by lra.
  rewrite !log10_Fin by lra. reflexivity.
Qed.

Lemma log10_resp_at_Fin :
  0 < Spec.dist (dist_rup p) r ->
  log10_resp_at p r = Fin (Spec.log10_resp (mag p) (dist_rup p) r).
Proof.
  intros Hd. unfold log10_resp_at. rewrite dist_at_Fin.
  rewrite near_field_at_Fin, mid_field_at_Fin, far_field_at_Fin by assumption.
  reflexivity.
Qed.

Lemma ln_resp_at_Fin :
  0 < Spec.dist (dist_rup p) r ->
  ln_resp_at p r = Fin (Spec.ln_resp (mag p) (dist_rup p) r).
Proof.
  intros Hd. unfold ln_resp_at, Spec.ln_resp.
  rewrite log10_resp_at_Fin by assumption.
  rewrite log_power10. unfold Rpower. now rewrite ln_exp.
Qed.

Lemma ln_std_mean_at_Fin :
  ln_std_mean_at p r = Fin (Spec.ln_std_mean (mag p) r).
Proof.
  unfold ln_std_mean_at, Spec.ln_std_mean.
  destruct (Rle_dec (mag p) 7); reflexivity.
Qed.

Lemma ln_std_at_Fin : ln_std_at p r = Fin (Spec.ln_std (mag p) r).
Proof.
  unfold ln_std_at, Spec.ln_std. rewrite ln_std_mean_at_Fin, !square_Fin.
  simpl F64.add. apply sqrt_Fin, sum_squares_nonneg.
Qed.

End RowFacts.

(** ** Base-10 logarithm facts used at the distance breakpoints *)

Lemma ln_le_mono x y : 0 < x -> x <= y -> ln x <= ln y.
Proof.
  intros Hx [Hlt|Heq].
  - left. now apply ln_increasing.
  - subst. right. reflexivity.
Qed.

Lemma ln10_pos : 0 < ln 10.
Proof. rewrite <- ln_1. apply ln_increasing; lra. Qed.

Lemma log10_le x y : 0 < x -> x <= y -> Spec.log10 x <= Spec.log10 y.
Proof.
  intros Hx Hxy. unfold Spec.log10.
  apply Rmult_le_compat_r.
  - left. apply Rinv_0_lt_compat, ln10_pos.
  - now apply ln_le_mono.
Qed.

Lemma log10_1 : Spec.log10 1 = 0.
Proof. unfold Spec.log10. rewrite ln_1. lra. Qed.

Lemma log10_2_pos : 0 < Spec.log10 (140 / 70).
Proof.
  unfold Spec.log10. apply Rmult_lt_0_compat.
  - rewrite <- ln_1. apply ln_increasing; lra.
  - apply Rinv_0_lt_compat, ln10_pos.
Qed.

Section Breakpoints.

Variable p : Params.
Variable r : Row.

(** The clipped logarithms: zero up to the breakpoint. *)
Lemma clip_mid_low d :
  0 <= d <= 70 ->
  F64.maximum
    (F64.minimum (F64.log10 (F64.div (Fin d) (Fin 70)))
                 (F64.log10 (F64.div (Fin 140) (Fin 70))))
    (Fin 0) = Fin 0.
Proof.
  intros [H0 H70]. rewrite !div_Fin by lra.
  rewrite (log10_Fin (140 / 70)) by lra.
  destruct H0 as [Hpos|Hz].
  - rewrite log10_Fin by lra. simpl. f_equal.
    assert (Spec.log10 (d / 70) <= 0).
    { rewrite <- log10_1. apply log10_le; lra. }
    pose proof log10_2_pos.
    rewrite Rmin_left by lra. now apply Rmax_right.
  - subst d. replace (0 / 70) with 0 by lra. rewrite log10_zero. reflexivity.
Qed.

Lemma clip_mid_high d :
  140 <= d ->
  F64.maximum
    (F64.minimum (F64.log10 (F64.div (Fin d) (Fin 70)))
                 (F64.log10 (F64.div (Fin 140) (Fin 70))))
    (Fin 0) = Fin (Spec.log10 (140 / 70)).
Proof.
  intros H. rewrite !div_Fin by lra. rewrite !log10_Fin by lra.
  simpl. f_equal.
  assert (Spec.log10 (140 / 70) <= Spec.log10 (d / 70)).
  { apply log10_le; lra. }
  pose proof log10_2_pos.
  rewrite Rmin_right by lra. apply Rmax_left. lra.
Qed.

Lemma clip_far_low d :
  0 <= d <= 140 ->
  F64.maximum (F64.log10 (F64.div (Fin d) (Fin 140))) (Fin 0) = Fin 0.
Proof.
  intros [H0 H140]. rewrite div_Fin by lra.
  destruct H0 as [Hpos|Hz].
  - rewrite log10_Fin by lra. simpl. f_equal.
    apply Rmax_right. rewrite <- log10_1. apply log10_le; lra.
  - subst d. replace (0 / 140) with 0 by lra. rewrite log10_zero. reflexivity.
Qed.

Lemma mid_field_at_low d :
  0 <= d <= 70 -> mid_field_at p r (Fin d) = Fin 0.
Proof.
  intros H. unfold mid_field_at. rewrite clip_mid_low by assumption.
  simpl. f_equal. ring.
Qed.

Lemma mid_field_at_high d :
  140 <= d ->
  mid_field_at p r (Fin d)
  = Fin ((c6 r + c7 r * mag p) * Spec.log10 (140 / 70)).
Proof.
  intros H. unfold mid_field_at. rewrite clip_mid_high by assumption.
  reflexivity.
Qed.

Lemma far_field_at_low d :
  0 <= d <= 140 -> far_field_at p r (Fin d) = Fin 0.
Proof.
  intros H. unfold far_field_at. rewrite clip_far_low by assumption.
  simpl. f_equal. ring.
Qed.

End Breakpoints.

(** The edge of the domain: a row whose effective distance is zero
    ([dist_rup = 0] and [c11 = 0]) gives [log10 0 = -inf] in the near-field
    term, and the response of that row is an infinity or nan. *)
Lemma ln_resp_at_zero_dist (p : Params) (r : Row) :
  dist_rup p = 0 -> c11 r = 0 -> ~ F64.is_finite (ln_resp_at p r).
Proof.
  intros Hd Hc. unfold ln_resp_at, log10_resp_at.
  rewrite dist_at_Fin, (dist_zero p r Hd Hc).
  rewrite mid_field_at_low, far_field_at_low by lra.
  unfold near_field_at. rewrite log10_zero, log10_Fin by lra.
  rewrite square_Fin. simpl. unfold F64.mul_inf.
  destruct (total_order_T 0 (c4 r + c5 r * mag p)) as [[H|H]|H]; simpl;
    try (intros []).
  unfold F64.log.
  destruct (total_order_T 0 0) as [[H'|H']|H']; try lra; intros [].
Qed.

(** ** Validation facts *)

Ltac decide_bounds :=
  repeat match goal with
    | |- context [Rlt_dec ?a ?b] => destruct (Rlt_dec a b); try lra
    end.

Section Validation.

Variable kwds : Kwds.
Variable m : R.
Hypothesis Hmag : kwds_get "mag" kwds = Some m.

Lemma Model__init__mag_low :
  m < 5 -> Model__init__ kwds = inl (ParameterOutOfRange "mag" m 5).
Proof.
  intros H. unfold Model__init__, PARAMS. simpl. rewrite Hmag. simpl.
  decide_bounds. reflexivity.
Qed.

Lemma Model__init__mag_high :
  8 < m -> Model__init__ kwds = inl (ParameterOutOfRange "mag" m 8).
Proof.
  intros H. unfold Model__init__, PARAMS. simpl. rewrite Hmag. simpl.
  decide_bounds. reflexivity.
Qed.

Variable d : R.
Hypothesis Hdist : kwds_get "dist_rup" kwds = Some d.
Hypothesis Hm : 5 <= m <= 8.

Lemma Model__init__dist_high :
  1000 < d ->
  Model__init__ kwds = inl (ParameterOutOfRange "dist_rup" d 1000).
Proof.
  intros H. unfold Model__init__, PARAMS. simpl. rewrite Hmag, Hdist. simpl.
  decide_bounds. reflexivity.
Qed.

Lemma Model__init__accept :
  d <= 1000 -> Model__init__ kwds = inr (mkParams m d).
Proof.
  intros H. unfold Model__init__, PARAMS. simpl. rewrite Hmag, Hdist. simpl.
  decide_bounds. reflexivity.
Qed.

End Validation.

Lemma init_inr COEFF kwds M :
  __init__ COEFF kwds = inr M ->
  Model__init__ kwds = inr (params M)
  /\ _ln_resp M = _calc_ln_resp COEFF (params M)
  /\ _ln_std M = _calc_ln_std COEFF (params M).
Proof.
  unfold __init__. destruct (Model__init__ kwds) as [e|p]; [discriminate|].
  intros H. injection H as <-. simpl. auto.
Qed.

(** ** Two evaluations on concrete inputs *)

(** [mag = 6] on the example rows: [ln_std_mean = -0.02*6 + 0.38 = 0.26]
    and [ln_std = sqrt (0.26^2 + 0.3^2)]. *)
Example ln_std_example :
  item (_calc_ln_std example_table (mkParams 6 20)) 0
  = Some (Fin (sqrt 0.1576)).
Proof.
  rewrite calc_ln_std_rows, item_map. simpl. rewrite ln_std_at_Fin.
  unfold Spec.ln_std, Spec.ln_std_mean. simpl mag.
  destruct (Rle_dec 6 7); [|lra].
  do 3 f_equal. simpl. lra.
Qed.

(** Between the breakpoints the mid-field term follows the distance:
    at 100 km on the zero-depth row it is [(0.3 - 0.09*6) * log10 (100/70)]. *)
Example mid_field_example :
  item (mid_field [surface_row] (mkParams 6 100)
          (calc_dist [surface_row] (mkParams 6 100))) 0
  = Some (Fin (-0.24 * Spec.log10 (100 / 70))).
Proof.
  rewrite calc_dist_rows, mid_field_rows, item_map. simpl.
  rewrite dist_at_Fin.
  assert (Hd : Spec.dist 100 surface_row = 100).
  { unfold Spec.dist. simpl.
    replace (100 * (100 * 1) + 0 * (0 * 1)) with (100 ^ 2) by (simpl; lra).
    apply sqrt_pow2. lra. }
  simpl dist_rup. rewrite Hd, mid_field_at_Fin by lra.
  unfold Spec.mid_field. simpl.
  assert (H1 : Spec.log10 1 <= Spec.log10 (100 / 70)) by (apply log10_le; lra).
  assert (H2 : Spec.log10 (100 / 70) <= Spec.log10 (140 / 70))
    by (apply log10_le; lra).
  rewrite log10_1 in H1.
  rewrite Rmin_left, Rmax_left by lra.
  do 2 f_equal. lra.
Qed.

(** * The claims *)

(** C1.  For every row of the coefficient table, the element of
    [_calc_ln_resp] at the position of that row is the formula of the
    specification: with [dist = sqrt (dist_rup^2 + c11^2)], the sum of the
    near-field, mid-field, far-field and anelastic terms gives
    [log10_resp], and the value is [ln (10 ^ log10_resp)].  The result has
    one element per row and depends on [(mag, dist_rup, COEFF)] only.  The
    effective distance is assumed non-zero, where the logarithms of the
    formula are defined. *)
Theorem C1_calc_ln_resp_formula
  (COEFF : CoefficientTable) (p : Params) (i : nat) (r : Row) :
  nth_error COEFF i = Some r ->
  dist_rup p <> 0 \/ c11 r <> 0 ->
  item (_calc_ln_resp COEFF p) i
  = Some (Fin (Spec.ln_resp (mag p) (dist_rup p) r))
  /\ len (_calc_ln_resp COEFF p) = Some (List.length COEFF).
Proof.
  intros Hr Hd. rewrite calc_ln_resp_rows. split.
  - rewrite item_map, Hr. simpl. f_equal.
    apply ln_resp_at_Fin, dist_pos, Hd.
  - apply len_map.
Qed.

Lemma C1_witness :
  item (_calc_ln_resp example_table (mkParams 6 20)) 3
  = Some (Fin (Spec.ln_resp 6 20 (example_row 3)))
  /\ len (_calc_ln_resp example_table (mkParams 6 20)) = Some 23%nat.
Proof.
  apply (C1_calc_ln_resp_formula example_table (mkParams 6 20) 3
           (example_row 3)).
  - reflexivity.
  - left. simpl. lra.
Defined.

(** C2.  For every row, the element of [_calc_ln_std] at the position of
    that row is [sqrt (ln_std_mean^2 + sigma_reg^2)], where [ln_std_mean]
    is [c12*mag + c13] when [mag <= 7] and [-6.95e-3*mag + c14] when
    [mag > 7]; at [mag = 7] it is [c12*7 + c13]. *)
Theorem C2_calc_ln_std_formula
  (COEFF : CoefficientTable) (p : Params) (i : nat) (r : Row) :
  nth_error COEFF i = Some r ->
  (mag p <= 7 ->
   item (_calc_ln_std COEFF p) i
   = Some (Fin (sqrt ((c12 r * mag p + c13 r) ^ 2 + sigma_reg r ^ 2))))
  /\ (7 < mag p ->
      item (_calc_ln_std COEFF p) i
      = Some (Fin (sqrt ((-6.95e-3 * mag p + c14 r) ^ 2 + sigma_reg r ^ 2))))
  /\ (mag p = 7 ->
      item (_calc_ln_std COEFF p) i
      = Some (Fin (sqrt ((c12 r * 7 + c13 r) ^ 2 + sigma_reg r ^ 2)))).
Proof.
  intros Hr. rewrite calc_ln_std_rows, item_map, Hr. simpl.
  rewrite ln_std_at_Fin. unfold Spec.ln_std, Spec.ln_std_mean.
  repeat split; intros H; destruct (Rle_dec (mag p) 7); try lra.
  - reflexivity.
  - reflexivity.
  - now rewrite H.
Qed.

Lemma C2_witness :
  item (_calc_ln_std example_table (mkParams 7 20)) 0
  = Some (Fin (sqrt ((c12 (example_row 0) * 7 + c13 (example_row 0)) ^ 2
                     + sigma_reg (example_row 0) ^ 2))).
Proof.
  apply (C2_calc_ln_std_formula example_table (mkParams 7 20) 0
           (example_row 0)).
  - reflexivity.
  - reflexivity.
Defined.

(** C3.  Construction with a supplied [mag] below 5 or above 8 raises
    [ParameterOutOfRange] for [mag] and yields no instance; with
    [5 <= mag <= 8] and a distance within its declared range it yields an
    instance whose parameters are exactly the supplied values (nothing is
    clamped or defaulted). *)
Theorem C3_mag_range
  (COEFF : CoefficientTable) (kwds : Kwds) (m : R) :
  kwds_get "mag" kwds = Some m ->
  (m < 5 -> __init__ COEFF kwds = inl (ParameterOutOfRange "mag" m 5))
  /\ (8 < m -> __init__ COEFF kwds = inl (ParameterOutOfRange "mag" m 8))
  /\ (5 <= m <= 8 ->
      forall d, kwds_get "dist_rup" kwds = Some d -> d <= 1000 ->
      exists M, __init__ COEFF kwds = inr M /\ params M = mkParams m d).
Proof.
  intros Hm. unfold __init__. repeat split.
  - intros H. now rewrite (Model__init__mag_low kwds m Hm H).
  - intros H. now rewrite (Model__init__mag_high kwds m Hm H).
  - intros H d Hd Hle.
    rewrite (Model__init__accept kwds m Hm d Hd H Hle).
    eexists. split; reflexivity.
Qed.

Lemma C3_witness :
  __init__ example_table [("mag"%string, 4.9); ("dist_rup"%string, 20)]
  = inl (ParameterOutOfRange "mag" 4.9 5)
  /\ __init__ example_table [("mag"%string, 8.1); ("dist_rup"%string, 20)]
     = inl (ParameterOutOfRange "mag" 8.1 8)
  /\ exists M,
       __init__ example_table [("mag"%string, 8); ("dist_rup"%string, 20)]
       = inr M /\ params M = mkParams 8 20.
Proof.
  split; [|split].
  - apply (C3_mag_range example_table
             [("mag"%string, 4.9); ("dist_rup"%string, 20)] 4.9);
      [reflexivity | lra].
  - apply (C3_mag_range example_table
             [("mag"%string, 8.1); ("dist_rup"%string, 20)] 8.1);
      [reflexivity | lra].
  - apply (C3_mag_range example_table
             [("mag"%string, 8); ("dist_rup"%string, 20)] 8);
      [reflexivity | lra | reflexivity | lra].
Defined.

(** C4, as stated, fails for negative distances: [PARAMS] declares no
    lower bound for [dist_rup], so a negative value is accepted. *)
Lemma C4_negative_dist_rup_accepted :
  exists M,
    __init__ example_table [("mag"%string, 6); ("dist_rup"%string, -1)]
    = inr M
    /\ dist_rup (params M) = -1.
Proof.
  unfold __init__.
  rewrite (Model__init__accept
             [("mag"%string, 6); ("dist_rup"%string, -1)] 6 eq_refl (-1)
             eq_refl) by lra.
  eexists. split; reflexivity.
Qed.

(** C4, amended.  With a valid magnitude, construction raises
    [ParameterOutOfRange] for [dist_rup] when [dist_rup] is above 1000, and
    accepts every [dist_rup <= 1000], the value 1000 included; no lower
    bound is declared, so negative distances are accepted too. *)
Theorem C4_dist_rup_range
  (COEFF : CoefficientTable) (kwds : Kwds) (m d : R) :
  kwds_get "mag" kwds = Some m ->
  5 <= m <= 8 ->
  kwds_get "dist_rup" kwds = Some d ->
  (1000 < d ->
   __init__ COEFF kwds = inl (ParameterOutOfRange "dist_rup" d 1000))
  /\ (d <= 1000 ->
      exists M, __init__ COEFF kwds = inr M /\ params M = mkParams m d).
Proof.
  intros Hm Hr Hd. unfold __init__. split; intros H.
  - now rewrite (Model__init__dist_high kwds m Hm d Hd Hr H).
  - rewrite (Model__init__accept kwds m Hm d Hd Hr H).
    eexists. split; reflexivity.
Qed.

Lemma C4_witness :
  __init__ example_table [("mag"%string, 6); ("dist_rup"%string, 1000.1)]
  = inl (ParameterOutOfRange "dist_rup" 1000.1 1000)
  /\ exists M,
       __init__ example_table [("mag"%string, 6); ("dist_rup"%string, 1000)]
       = inr M /\ params M = mkParams 6 1000.
Proof.
  split.
  - apply (C4_dist_rup_range example_table
             [("mag"%string, 6); ("dist_rup"%string, 1000.1)] 6 1000.1);
      [reflexivity | lra | reflexivity | lra].
  - apply (C4_dist_rup_range example_table
             [("mag"%string, 6); ("dist_rup"%string, 1000)] 6 1000);
      [reflexivity | lra | reflexivity | lra].
Defined.

(** C5.  At the position of every row, with [d] the effective distance of
    that row: the mid-field term is exactly 0 at [d = 70] and the far-field
    term is exactly 0 at [d = 140]; the mid-field term is 0 for every
    [d <= 70] and has the saturated value [(c6 + c7*mag) * log10 (140/70)]
    for every [d >= 140]; the far-field term is 0 for every [d <= 140]. *)
Theorem C5_breakpoints
  (COEFF : CoefficientTable) (p : Params) (i : nat) (r : Row) :
  nth_error COEFF i = Some r ->
  let d := Spec.dist (dist_rup p) r in
  let dist := calc_dist COEFF p in
  item dist i = Some (Fin d)
  /\ (d = 70 -> item (mid_field COEFF p dist) i = Some (Fin 0))
  /\ (d = 140 -> item (far_field COEFF p dist) i = Some (Fin 0))
  /\ (d <= 70 -> item (mid_field COEFF p dist) i = Some (Fin 0))
  /\ (140 <= d ->
      item (mid_field COEFF p dist) i
      = Some (Fin ((c6 r + c7 r * mag p) * Spec.log10 (140 / 70))))
  /\ (d <= 140 -> item (far_field COEFF p dist) i = Some (Fin 0)).
Proof.
  intros Hr d dist. subst dist. rewrite calc_dist_rows.
  rewrite mid_field_rows, far_field_rows, !item_map, Hr. simpl.
  rewrite dist_at_Fin. fold d.
  assert (H0 : 0 <= d) by apply dist_nonneg.
  repeat split; intros H; f_equal.
  - apply mid_field_at_low. lra.
  - apply far_field_at_low. lra.
  - apply mid_field_at_low. lra.
  - now apply mid_field_at_high.
  - apply far_field_at_low. lra.
Qed.

Lemma C5_witness :
  item (mid_field [surface_row] (mkParams 6 70)
          (calc_dist [surface_row] (mkParams 6 70))) 0
  = Some (Fin 0)
  /\ item (far_field [surface_row] (mkParams 6 140)
             (calc_dist [surface_row] (mkParams 6 140))) 0
     = Some (Fin 0).
Proof.
  split.
  - refine (proj1 (proj2
      (C5_breakpoints [surface_row] (mkParams 6 70) 0 surface_row eq_refl))
      _).
    unfold Spec.dist. simpl.
    replace (70 * (70 * 1) + 0 * (0 * 1)) with (70 ^ 2) by (simpl; lra).
    apply sqrt_pow2. lra.
  - refine (proj1 (proj2 (proj2
      (C5_breakpoints [surface_row] (mkParams 6 140) 0 surface_row eq_refl)))
      _).
    unfold Spec.dist. simpl.
    replace (140 * (140 * 1) + 0 * (0 * 1)) with (140 ^ 2) by (simpl; lra).
    apply sqrt_pow2. lra.
Defined.

(** C8.  The last step of [_calc_ln_resp] takes the natural logarithm of
    ten to the power [log10_resp], and for every real [log10_resp] that is
    [log10_resp * ln 10], for a scalar and element by element for an
    array. *)
Theorem C8_log_of_power10 :
  (forall COEFF p,
     _calc_ln_resp COEFF p = np.log (np.power10 (calc_log10_resp COEFF p)))
  /\ (forall x : R, F64.log (F64.power10 (Fin x)) = Fin (x * ln 10))
  /\ (forall xs : list R,
        np.log (np.power10 (Array (map Fin xs)))
        = np.multiply (Array (map Fin xs)) (py (ln 10))).
Proof.
  split; [reflexivity|]. split; [apply log_power10|].
  intros xs. vectorise. f_equal. apply map_ext. intros x.
  apply log_power10.
Qed.

(** C9.  Two accepted instances over one table with the same [mag] hold
    identical [_ln_std] arrays whatever their distances, and identical
    [_ln_resp] arrays when their distances are [d] and [-d]. *)
Theorem C9_sign_invariance
  (COEFF : CoefficientTable) (kwds1 kwds2 : Kwds) (M1 M2 : Model) :
  __init__ COEFF kwds1 = inr M1 ->
  __init__ COEFF kwds2 = inr M2 ->
  mag (params M1) = mag (params M2) ->
  (dist_rup (params M2) = - dist_rup (params M1) ->
   _ln_resp M1 = _ln_resp M2)
  /\ _ln_std M1 = _ln_std M2.
Proof.
  intros H1 H2 Hm.
  apply init_inr in H1 as (_ & Hr1 & Hs1).
  apply init_inr in H2 as (_ & Hr2 & Hs2).
  rewrite Hr1, Hr2, Hs1, Hs2. split.
  - intros Hd. rewrite !calc_ln_resp_rows. f_equal. apply map_ext.
    intros r. unfold ln_resp_at, log10_resp_at.
    assert (Hdist : dist_at (params M1) r = dist_at (params M2) r).
    { rewrite !dist_at_Fin. unfold Spec.dist. rewrite Hd.
      do 2 f_equal. ring. }
    unfold near_field_at, mid_field_at, far_field_at.
    now rewrite Hdist, Hm.
  - unfold _calc_ln_std. now rewrite Hm.
Qed.

Lemma C9_witness :
  let kwds1 := [("mag"%string, 6); ("dist_rup"%string, 20)] in
  let kwds2 := [("mag"%string, 6); ("dist_rup"%string, -20)] in
  exists M1 M2,
    __init__ example_table kwds1 = inr M1
    /\ __init__ example_table kwds2 = inr M2
    /\ _ln_resp M1 = _ln_resp M2 /\ _ln_std M1 = _ln_std M2.
Proof.
  intros kwds1 kwds2.
  assert (H1 : __init__ example_table kwds1
               = inr (mkModel (mkParams 6 20)
                        (_calc_ln_resp example_table (mkParams 6 20))
                        (_calc_ln_std example_table (mkParams 6 20)))).
  { unfold __init__.
    rewrite (Model__init__accept kwds1 6 eq_refl 20 eq_refl) by lra.
    reflexivity. }
  assert (H2 : __init__ example_table kwds2
               = inr (mkModel (mkParams 6 (-20))
                        (_calc_ln_resp example_table (mkParams 6 (-20)))
                        (_calc_ln_std example_table (mkParams 6 (-20))))).
  { unfold __init__.
    rewrite (Model__init__accept kwds2 6 eq_refl (-20) eq_refl) by lra.
    reflexivity. }
  eexists. eexists. split; [exact H1|]. split; [exact H2|].
  destruct (C9_sign_invariance example_table kwds1 kwds2 _ _ H1 H2 eq_refl)
    as [Hresp Hstd].
  split; [apply Hresp; reflexivity | exact Hstd].
Defined.

(** C10.  For every input and every row, the element of [_calc_ln_std] at
    the position of that row is the finite number
    [sqrt (ln_std_mean^2 + sigma_reg^2)], which is at least [|sigma_reg|]
    and so is never negative. *)
Theorem C10_ln_std_lower_bound
  (COEFF : CoefficientTable) (p : Params) (i : nat) (r : Row) :
  nth_error COEFF i = Some r ->
  exists s,
    item (_calc_ln_std COEFF p) i = Some (Fin s)
    /\ s = sqrt (Spec.ln_std_mean (mag p) r ^ 2 + sigma_reg r ^ 2)
    /\ Rabs (sigma_reg r) <= s
    /\ 0 <= Rabs (sigma_reg r).
Proof.
  intros Hr. exists (Spec.ln_std (mag p) r).
  rewrite calc_ln_std_rows, item_map, Hr. simpl. rewrite ln_std_at_Fin.
  repeat split.
  - unfold Spec.ln_std. rewrite <- sqrt_Rsqr_abs.
    apply sqrt_le_1_alt. unfold Rsqr. nra.
  - apply Rabs_pos.
Qed.

Lemma C10_witness :
  exists s,
    item (_calc_ln_std example_table (mkParams 7.5 20)) 22 = Some (Fin s)
    /\ s = sqrt (Spec.ln_std_mean 7.5 (example_row 22) ^ 2
                 + sigma_reg (example_row 22) ^ 2)
    /\ Rabs (sigma_reg (example_row 22)) <= s
    /\ 0 <= Rabs (sigma_reg (example_row 22)).
Proof.
  apply (C10_ln_std_lower_bound example_table (mkParams 7.5 20) 22
           (example_row 22)).
  reflexivity.
Defined.

(** * Further properties of the two calculations *)

(** ** Real-number facts *)

Lemma sqrt_sum_squares_bounds a b :
  Rabs a <= sqrt (a ^ 2 + b ^ 2)
  /\ Rabs b <= sqrt (a ^ 2 + b ^ 2)
  /\ sqrt (a ^ 2 + b ^ 2) <= Rabs a + Rabs b.
Proof.
  pose proof (Rabs_pos a) as Ha. pose proof (Rabs_pos b) as Hb.
  pose proof (pow2_abs a) as Ha2. pose proof (pow2_abs b) as Hb2.
  repeat split.
  - apply Rle_trans with (sqrt (Rabs a ^ 2)).
    + right. symmetry. now apply sqrt_pow2.
    + apply sqrt_le_1_alt. nra.
  - apply Rle_trans with (sqrt (Rabs b ^ 2)).
    + right. symmetry. now apply sqrt_pow2.
    + apply sqrt_le_1_alt. nra.
  - apply Rle_trans with (sqrt ((Rabs a + Rabs b) ^ 2)).
    + apply sqrt_le_1_alt. nra.
    + right. apply sqrt_pow2. lra.
Qed.

Lemma sqrt_between lo hi x :
  0 <= lo -> 0 <= hi -> lo ^ 2 <= x <= hi ^ 2 -> lo <= sqrt x <= hi.
Proof.
  intros Hlo Hhi [H1 H2]. split.
  - rewrite <- (sqrt_pow2 lo Hlo). now apply sqrt_le_1_alt.
  - rewrite <- (sqrt_pow2 hi Hhi). now apply sqrt_le_1_alt.
Qed.

(** The clipped logarithms of the three distance regimes. *)
Section Clips.

Variable d : R.
Hypothesis Hd : 0 < d.

Lemma clip_near_below :
  d <= 70 -> Rmin (Spec.log10 d) (Spec.log10 70) = Spec.log10 d.
Proof. intros H. apply Rmin_left, log10_le; lra. Qed.

Lemma clip_near_above :
  70 <= d -> Rmin (Spec.log10 d) (Spec.log10 70) = Spec.log10 70.
Proof. intros H. apply Rmin_right, log10_le; lra. Qed.

Lemma clip_mid_below :
  d <= 70 -> Rmax (Rmin (Spec.log10 (d / 70)) (Spec.log10 (140 / 70))) 0 = 0.
Proof.
  intros H. pose proof log10_2_pos.
  assert (Spec.log10 (d / 70) <= 0).
  { rewrite <- log10_1. apply log10_le; lra. }
  rewrite Rmin_left by lra. now apply Rmax_right.
Qed.

Lemma clip_mid_band :
  70 <= d <= 140 ->
  Rmax (Rmin (Spec.log10 (d / 70)) (Spec.log10 (140 / 70))) 0
  = Spec.log10 (d / 70).
Proof.
  intros H.
  assert (0 <= Spec.log10 (d / 70)).
  { rewrite <- log10_1. apply log10_le; lra. }
  assert (Spec.log10 (d / 70) <= Spec.log10 (140 / 70)).
  { apply log10_le; lra. }
  rewrite Rmin_left by lra. now apply Rmax_left.
Qed.

Lemma clip_mid_above :
  140 <= d ->
  Rmax (Rmin (Spec.log10 (d / 70)) (Spec.log10 (140 / 70))) 0
  = Spec.log10 (140 / 70).
Proof.
  intros H. pose proof log10_2_pos.
  assert (Spec.log10 (140 / 70) <= Spec.log10 (d / 70)).
  { apply log10_le; lra. }
  rewrite Rmin_right by lra. apply Rmax_left. lra.
Qed.

Lemma clip_far_below :
  d <= 140 -> Rmax (Spec.log10 (d / 140)) 0 = 0.
Proof.
  intros H. apply Rmax_right. rewrite <- log10_1. apply log10_le; lra.
Qed.

Lemma clip_far_above :
  140 <= d -> Rmax (Spec.log10 (d / 140)) 0 = Spec.log10 (d / 140).
Proof.
  intros H. apply Rmax_left. rewrite <- log10_1. apply log10_le; lra.
Qed.

End Clips.


(** Position [i] of [log10_resp], for a row of non-zero effective
    distance. *)
Lemma calc_log10_resp_item COEFF p i r :
  nth_error COEFF i = Some r ->
  0 < Spec.dist (dist_rup p) r ->
  item (calc_log10_resp COEFF p) i
  = Some (Fin (Spec.log10_resp (mag p) (dist_rup p) r)).
Proof.
  intros Hr Hd. rewrite calc_log10_resp_rows, item_map, Hr. simpl.
  f_equal. now apply log10_resp_at_Fin.
Qed.


(** ** The effective distance *)

(** X1.  At the position of every row the effective distance is a finite
    number [d] (the square root never sees a negative argument), at least
    [|dist_rup|] and at least [|c11|], and at most [|dist_rup| + |c11|]. *)
Theorem X1_effective_distance_bounds
  (COEFF : CoefficientTable) (p : Params) (i : nat) (r : Row) :
  nth_error COEFF i = Some r ->
  exists d,
    item (calc_dist COEFF p) i = Some (Fin d)
    /\ Rabs (dist_rup p) <= d
    /\ Rabs (c11 r) <= d
    /\ d <= Rabs (dist_rup p) + Rabs (c11 r).
Proof.
  intros Hr. exists (Spec.dist (dist_rup p) r).
  rewrite calc_dist_rows, item_map, Hr. simpl. rewrite dist_at_Fin.
  split; [reflexivity|]. apply sqrt_sum_squares_bounds.
Qed.

Lemma X1_witness :
  exists d,
    item (calc_dist example_table (mkParams 6 (-20))) 5 = Some (Fin d)
    /\ Rabs (-20) <= d
    /\ Rabs (c11 (example_row 5)) <= d
    /\ d <= Rabs (-20) + Rabs (c11 (example_row 5)).
Proof.
  apply (X1_effective_distance_bounds example_table (mkParams 6 (-20)) 5
           (example_row 5)).
  reflexivity.
Defined.

(** ** The edge of the domain of the response *)



(** ** The three distance regimes of [log10_resp] *)

(** X4.  Up to 70 km of effective distance only the near-field scaling
    acts: [log10_resp] is
    [c1 + c2*mag + c3*mag^2 + (c4 + c5*mag) * log10 d + c10*d]. *)
Theorem X4_log10_resp_near
  (COEFF : CoefficientTable) (p : Params) (i : nat) (r : Row) :
  nth_error COEFF i = Some r ->
  0 < Spec.dist (dist_rup p) r <= 70 ->
  let d := Spec.dist (dist_rup p) r in
  item (calc_log10_resp COEFF p) i
  = Some (Fin (c1 r + c2 r * mag p + c3 r * mag p ^ 2
               + (c4 r + c5 r * mag p) * Spec.log10 d
               + c10 r * d)).
Proof.
  intros Hr [H0 H1] d. rewrite (calc_log10_resp_item COEFF p i r Hr H0).
  unfold Spec.log10_resp, Spec.near_field, Spec.mid_field, Spec.far_field,
    Spec.anelastic. cbv zeta. fold d.
  rewrite clip_near_below, clip_mid_below, clip_far_below
    by (unfold d; lra).
  do 2 f_equal. ring.
Qed.

(** X5.  Between 70 km and 140 km the near-field scaling is saturated at
    [log10 70] and the mid-field scaling follows [log10 (d/70)]. *)
Theorem X5_log10_resp_mid
  (COEFF : CoefficientTable) (p : Params) (i : nat) (r : Row) :
  nth_error COEFF i = Some r ->
  70 <= Spec.dist (dist_rup p) r <= 140 ->
  let d := Spec.dist (dist_rup p) r in
  item (calc_log10_resp COEFF p) i
  = Some (Fin (c1 r + c2 r * mag p + c3 r * mag p ^ 2
               + (c4 r + c5 r * mag p) * Spec.log10 70
               + (c6 r + c7 r * mag p) * Spec.log10 (d / 70)
               + c10 r * d)).
Proof.
  intros Hr [H0 H1] d.
  rewrite (calc_log10_resp_item COEFF p i r Hr) by lra.
  unfold Spec.log10_resp, Spec.near_field, Spec.mid_field, Spec.far_field,
    Spec.anelastic. cbv zeta. fold d.
  rewrite clip_near_above, clip_mid_band, clip_far_below
    by (unfold d; lra).
  do 2 f_equal. ring.
Qed.

(** X6.  From 140 km on, the near-field and mid-field scalings are
    saturated and the far-field scaling follows [log10 (d/140)]. *)
Theorem X6_log10_resp_far
  (COEFF : CoefficientTable) (p : Params) (i : nat) (r : Row) :
  nth_error COEFF i = Some r ->
  140 <= Spec.dist (dist_rup p) r ->
  let d := Spec.dist (dist_rup p) r in
  item (calc_log10_resp COEFF p) i
  = Some (Fin (c1 r + c2 r * mag p + c3 r * mag p ^ 2
               + (c4 r + c5 r * mag p) * Spec.log10 70
               + (c6 r + c7 r * mag p) * Spec.log10 (140 / 70)
               + (c8 r + c9 r * mag p) * Spec.log10 (d / 140)
               + c10 r * d)).
Proof.
  intros Hr H0 d.
  rewrite (calc_log10_resp_item COEFF p i r Hr) by lra.
  unfold Spec.log10_resp, Spec.near_field, Spec.mid_field, Spec.far_field,
    Spec.anelastic. cbv zeta. fold d.
  rewrite clip_near_above, clip_mid_above, clip_far_above
    by (unfold d; lra).
  reflexivity.
Qed.

Lemma example_dist_bounds (k : nat) (x lo hi : R) :
  0 <= lo -> 0 <= hi ->
  lo ^ 2 <= x ^ 2 + 6.5 ^ 2 <= hi ^ 2 ->
  lo <= Spec.dist x (example_row k) <= hi.
Proof. intros Hlo Hhi H. unfold Spec.dist. now apply sqrt_between. Qed.

Lemma X4_witness :
  exists y,
    item (calc_log10_resp example_table (mkParams 6 20)) 0 = Some (Fin y).
Proof.
  eexists.
  apply (X4_log10_resp_near example_table (mkParams 6 20) 0 (example_row 0)).
  - reflexivity.
  - pose proof (example_dist_bounds 0 20 20 70) as H. simpl dist_rup. lra.
Defined.

Lemma X5_witness :
  exists y,
    item (calc_log10_resp example_table (mkParams 6 100)) 0 = Some (Fin y).
Proof.
  eexists.
  apply (X5_log10_resp_mid example_table (mkParams 6 100) 0 (example_row 0)).
  - reflexivity.
  - pose proof (example_dist_bounds 0 100 70 140) as H. simpl dist_rup. lra.
Defined.

Lemma X6_witness :
  exists y,
    item (calc_log10_resp example_table (mkParams 6 200)) 0 = Some (Fin y).
Proof.
  eexists.
  apply (X6_log10_resp_far example_table (mkParams 6 200) 0 (example_row 0)).
  - reflexivity.
  - pose proof (example_dist_bounds 0 200 140 201) as H. simpl dist_rup. lra.
Defined.

(** ** Rows are independent *)

(** X8.  An element of either result depends on the row at its position
    only: wherever two tables hold the same row, at whatever positions,
    the responses there are equal and the standard deviations there are
    equal. *)
Theorem X8_row_locality
  (COEFF1 COEFF2 : CoefficientTable) (p : Params) (i j : nat) (r : Row) :
  nth_error COEFF1 i = Some r ->
  nth_error COEFF2 j = Some r ->
  item (_calc_ln_resp COEFF1 p) i = item (_calc_ln_resp COEFF2 p) j
  /\ item (_calc_ln_std COEFF1 p) i = item (_calc_ln_std COEFF2 p) j.
Proof.
  intros H1 H2. rewrite !calc_ln_resp_rows, !calc_ln_std_rows, !item_map.
  now rewrite H1, H2.
Qed.

Lemma X8_witness :
  item (_calc_ln_resp example_table (mkParams 6 20)) 0
  = item (_calc_ln_resp [example_row 0; surface_row] (mkParams 6 20)) 0
  /\ item (_calc_ln_std example_table (mkParams 6 20)) 0
     = item (_calc_ln_std [example_row 0; surface_row] (mkParams 6 20)) 0.
Proof.
  apply (X8_row_locality example_table [example_row 0; surface_row]
           (mkParams 6 20) 0 0 (example_row 0)); reflexivity.
Defined.

(** ** Bounds on the standard deviation *)

(** X9.  At the position of every row the standard deviation [s] lies
    between [|ln_std_mean|] and [|ln_std_mean| + |sigma_reg|], and it is
    zero only when both [ln_std_mean] and [sigma_reg] are zero. *)
Theorem X9_ln_std_bounds
  (COEFF : CoefficientTable) (p : Params) (i : nat) (r : Row) :
  nth_error COEFF i = Some r ->
  let mean := if Rle_dec (mag p) 7 then c12 r * mag p + c13 r
              else -6.95e-3 * mag p + c14 r in
  exists s,
    item (_calc_ln_std COEFF p) i = Some (Fin s)
    /\ Rabs mean <= s
    /\ s <= Rabs mean + Rabs (sigma_reg r)
    /\ (s = 0 -> mean = 0 /\ sigma_reg r = 0).
Proof.
  intros Hr mean. exists (Spec.ln_std (mag p) r).
  rewrite calc_ln_std_rows, item_map, Hr. simpl. rewrite ln_std_at_Fin.
  unfold Spec.ln_std, Spec.ln_std_mean. fold mean.
  destruct (sqrt_sum_squares_bounds mean (sigma_reg r)) as (H1 & H2 & H3).
  split; [reflexivity|]. split; [exact H1|]. split; [exact H3|].
  intros H0. rewrite H0 in H1, H2. split.
  - destruct (Req_dec mean 0) as [E|E]; [exact E|].
    apply Rabs_pos_lt in E. lra.
  - destruct (Req_dec (sigma_reg r) 0) as [E|E]; [exact E|].
    apply Rabs_pos_lt in E. lra.
Qed.

Lemma X9_witness :
  exists s,
    item (_calc_ln_std example_table (mkParams 7.5 20)) 4 = Some (Fin s)
    /\ s <= Rabs (if Rle_dec 7.5 7
                  then c12 (example_row 4) * 7.5 + c13 (example_row 4)
                  else -6.95e-3 * 7.5 + c14 (example_row 4))
            + Rabs (sigma_reg (example_row 4)).
Proof.
  destruct (X9_ln_std_bounds example_table (mkParams 7.5 20) 4
              (example_row 4) eq_refl) as (s & Hs & _ & Hub & _).
  exists s. split; [exact Hs | exact Hub].
Defined.

(** ** Attenuation with distance *)



(** ** Shape and alignment of the results *)

(** X11.  Over a table of [n] rows, [_calc_ln_resp], [_calc_ln_std] and
    [PERIODS] are arrays of exactly [n] elements.  At every position below
    [n] the table has a row whose period is the element of [PERIODS] there,
    and each result holds there what the same calculation gives on that
    row alone; from [n] on, neither result has an element.  For [n = 23],
    [INDEX_PGA] followed by [INDICES_PSA] lists the positions in order. *)
Theorem X11_shape_and_alignment
  (COEFF : CoefficientTable) (p : Params) (n : nat) :
  List.length COEFF = n ->
  len (_calc_ln_resp COEFF p) = Some n
  /\ len (_calc_ln_std COEFF p) = Some n
  /\ len (PERIODS COEFF) = Some n
  /\ (forall i, (i < n)%nat ->
      exists r,
        nth_error COEFF i = Some r
        /\ item (PERIODS COEFF) i = Some (Fin (period r))
        /\ item (_calc_ln_resp COEFF p) i = item (_calc_ln_resp [r] p) 0
        /\ item (_calc_ln_std COEFF p) i = item (_calc_ln_std [r] p) 0)
  /\ (forall i, (n <= i)%nat ->
      item (_calc_ln_resp COEFF p) i = None
      /\ item (_calc_ln_std COEFF p) i = None)
  /\ (n = 23%nat -> INDEX_PGA :: INDICES_PSA = seq 0 n).
Proof.
  intros Hlen. unfold PERIODS, col.
  rewrite !calc_ln_resp_rows, !calc_ln_std_rows, !len_map, Hlen.
  split; [reflexivity|]. split; [reflexivity|]. split; [reflexivity|].
  split; [|split].
  - intros i Hi.
    destruct (nth_error COEFF i) as [r|] eqn:Hr.
    + exists r. rewrite !calc_ln_resp_rows, !calc_ln_std_rows, !item_map, Hr.
      repeat split.
    + apply nth_error_None in Hr. lia.
  - intros i Hi. rewrite !item_map.
    assert (Hr : nth_error COEFF i = None) by (apply nth_error_None; lia).
    rewrite Hr. split; reflexivity.
  - intros ->. reflexivity.
Qed.

Lemma X11_witness :
  len (_calc_ln_resp example_table (mkParams 6 20)) = Some 23%nat
  /\ len (_calc_ln_std example_table (mkParams 6 20)) = Some 23%nat
  /\ len (PERIODS example_table) = Some 23%nat.
Proof.
  destruct (X11_shape_and_alignment example_table (mkParams 6 20) 23
              eq_refl) as (H1 & H2 & H3 & _).
  split; [exact H1|]. split; [exact H2 | exact H3].
Defined.
